(** * A shallow embedding of NickCao/bouncer (src/main.rs)

    The HTTP handlers [index], [invite] and [callback] of the invite gate
    are modelled over an explicit world: the application state shared
    through [Arc<AppState>], the pending-invite map [csrf] behind its
    mutex, and a log of the external calls issued so far.  The answers
    of the external services (Cloudflare Turnstile, GitHub OAuth and API,
    the Matrix homeserver) are inputs of each request.

    Each handler touches the [csrf] map exactly once, under the mutex
    ([remove] first thing in [callback], [insert] last thing in [invite]),
    and never holds the lock across a network call; any concurrent run
    is therefore equivalent to the sequential run ordered by these
    single map accesses, which is what [run] below executes. *)

From Stdlib Require Import ZArith.
From stdpp Require Import base gmap strings list.

Open Scope Z_scope.

(** ** Data *)

(** [ruma::space::SpaceRoomJoinRule] *)
Inductive SpaceRoomJoinRule :=
| JRInvite | JRKnock | JRPrivate | JRPublic | JRRestricted
| JRKnockRestricted | JRCustom (s : string).

(** [struct RoomInfo] *)
Record RoomInfo := {
  room_id_of : string;
  canonical_alias : option string;
  name : option string;
  join_rule : SpaceRoomJoinRule;
}.

(** [struct Invite] (the form of [POST /invite]) *)
Record Invite := {
  room_id : string;
  user_id : string;
  cf_turnstile_response : string;
}.

(** [struct Callback] (the query of [GET /callback]) *)
Record Callback := {
  code : string;
  state : string;
}.

(** [struct GitHubUser]; [created_at] in nanoseconds since the epoch. *)
Record GitHubUser := {
  login : string;
  created_at : Z;
}.

(** The immutable part of [struct AppState] (everything but [csrf]). *)
Record AppState := {
  github_client_id : string;
  github_redirect_url : string;
  rooms : gmap string RoomInfo;
  turnstile_site_key : string;
  turnstile_secret_key : string;
}.

(** External calls, recorded in the order they are issued. *)
Inductive Call :=
| TurnstileSiteverify (secret response : string)
| ExchangeCode (c : string)
| GetGithubUser (access_token : string)
| GetProfile (uid : string)
| InviteUser (rid uid : string).

(** The outcome of [reqwest ... .send().await?.json().await?]. *)
Inductive HttpJson (A : Type) :=
| SendError (e : string)
| DecodeError (e : string)
| Decoded (a : A).
Arguments SendError {A} e.
Arguments DecodeError {A} e.
Arguments Decoded {A} a.

(** The outcome of [client.send_request(..).await] against the homeserver:
    a response or a Matrix error (HTTP status and errcode). *)
Inductive MatrixResult (A : Type) :=
| MatrixOk (a : A)
| MatrixErr (status : Z) (errcode : string).
Arguments MatrixOk {A} a.
Arguments MatrixErr {A} status errcode.

(** What the collaborators answer to one [POST /invite]. *)
Record InviteEnv := {
  iv_turnstile : HttpJson bool;       (** [Turnstile { success }] *)
  iv_new_random : string;             (** [CsrfToken::new_random()] *)
}.

(** What the collaborators answer to one [GET /callback]. *)
Record CallbackEnv := {
  cb_exchange : option string;                    (** access token or error *)
  cb_github : option (HttpJson GitHubUser);       (** [None]: client build failed *)
  cb_now : Z;                                     (** [Local::now()], ns *)
  cb_profile : MatrixResult (option string);      (** displayname *)
  cb_invite : MatrixResult unit;
}.

(** The world a handler runs in. *)
Record World := {
  app : AppState;
  csrf : gmap string Invite;
  calls : list Call;
}.

(** [Result<T, (StatusCode, String)>] *)
Inductive result (A : Type) :=
| Ok (a : A)
| Err (status : Z) (msg : string).
Arguments Ok {A} a.
Arguments Err {A} status msg.

(** ** The handler monad: state over [World] with early return on [Err] *)

Definition M (A : Type) : Type := World -> World * result A.

#[global] Instance M_ret : MRet M := fun A a w => (w, Ok a).
#[global] Instance M_bind : MBind M := fun A B f m w =>
  match m w with
  | (w', Ok a) => f a w'
  | (w', Err s e) => (w', Err s e)
  end.

Definition fail {A} (s : Z) (e : string) : M A := fun w => (w, Err s e).

Definition get_app : M AppState := fun w => (w, Ok (app w)).

Definition emit (c : Call) : M unit := fun w =>
  ({| app := app w; csrf := csrf w; calls := calls w ++ [c] |}, Ok tt).

(** [state.csrf.lock().await.remove(k)] *)
Definition csrf_remove (k : string) : M (option Invite) := fun w =>
  ({| app := app w; csrf := delete k (csrf w); calls := calls w |},
   Ok (csrf w !! k)).

(** [state.csrf.lock().await.insert(k, v)] *)
Definition csrf_insert (k : string) (v : Invite) : M unit := fun w =>
  ({| app := app w; csrf := <[k := v]> (csrf w); calls := calls w |}, Ok tt).

(** ** Helpers *)

(** [UserId::server_name]: everything after the first [':']. *)
Fixpoint server_name (s : string) : string :=
  match s with
  | EmptyString => EmptyString
  | String c rest => if Ascii.eqb c (Ascii.ascii_of_nat 58) then rest else server_name rest
  end.

(** [Duration::days(1)] in nanoseconds. *)
Definition one_day : Z := 86400 * 1000000000.

(** [oauth2_client.authorize_url(..).url()] for the GitHub client. *)
Definition authorize_url (a : AppState) (tok : string) : string :=
  "https://github.com/login/oauth/authorize?response_type=code&client_id="
  ++ github_client_id a ++ "&state=" ++ tok
  ++ "&redirect_uri=" ++ github_redirect_url a.

(** The success body of [callback]. *)
Definition success_msg (displayname : string) (inv : Invite) : string :=
  "successfully invited user " ++ displayname ++ " (" ++ user_id inv
  ++ ") to room " ++ room_id inv.

(** ** Handlers *)

(** [async fn index]: the rooms of the snapshot and the site key. *)
Definition index : M (list RoomInfo * string) :=
  a ← get_app;
  mret (snd <$> map_to_list (rooms a), turnstile_site_key a).

(** [async fn invite]; [Ok url] is [Redirect::to(url)]. *)
Definition invite (env : InviteEnv) (inv : Invite) : M string :=
  a ← get_app;
  _ ← emit (TurnstileSiteverify (turnstile_secret_key a) (cf_turnstile_response inv));
  match iv_turnstile env with
  | SendError _ => fail 500 "failed to verify turnstile response"
  | DecodeError _ => fail 500 "failed to decode turnstile verify result"
  | Decoded success =>
      if negb success then fail 403 "turnstile verification failed" else
      match rooms a !! room_id inv with
      | None => fail 400 "invalid room_id"
      | Some _ =>
          let tok := iv_new_random env in
          let auth_url := authorize_url a tok in
          _ ← csrf_insert tok inv;
          mret auth_url
      end
  end.

(** [async fn callback] *)
Definition callback (env : CallbackEnv) (query : Callback) : M string :=
  o ← csrf_remove (state query);
  match o with
  | None => fail 400 "invalid csrf token"
  | Some inv =>
  _ ← emit (ExchangeCode (code query));
  match cb_exchange env with
  | None => fail 400 "failed to exchange for token"
  | Some token =>
  match cb_github env with
  | None => fail 500 "failed to build client"
  | Some gh =>
  _ ← emit (GetGithubUser token);
  match gh with
  | SendError _ => fail 500 "failed to get user info"
  | DecodeError _ => fail 500 "failed to decode user info"
  | Decoded user =>
  let age := cb_now env - created_at user in
  if String.eqb (server_name (user_id inv)) "matrix.org" && (age <=? one_day)
  then fail 403 ""
  else
  _ ← emit (GetProfile (user_id inv));
  match cb_profile env with
  | MatrixErr _ _ => fail 500 "failed to get user profile"
  | MatrixOk displayname =>
  _ ← emit (InviteUser (room_id inv) (user_id inv));
  match cb_invite env with
  | MatrixErr _ _ => fail 500 "failed to invite user"
  | MatrixOk _ => mret (success_msg (default "" displayname) inv)
  end end end end end end.

(** ** Startup ([async fn main]) *)

(** The answer of [get_summary::msc3266] for one joined room. *)
Record RoomSummary := {
  sm_room_id : string;
  sm_canonical_alias : option string;
  sm_name : option string;
  sm_join_rule : SpaceRoomJoinRule;
}.

(** The [for room in joined_rooms] loop of [main]; a failed summary
    request aborts startup ([?]). *)
Fixpoint build_rooms (summary : string -> option RoomSummary)
    (acc : gmap string RoomInfo) (joined : list string)
    : option (gmap string RoomInfo) :=
  match joined with
  | [] => Some acc
  | room :: rest =>
      match summary room with
      | None => None
      | Some preview =>
          build_rooms summary
            (<[sm_room_id preview :=
                 {| room_id_of := sm_room_id preview;
                    canonical_alias := sm_canonical_alias preview;
                    name := sm_name preview;
                    join_rule := sm_join_rule preview |}]> acc) rest
      end
  end.

(** The world [main] hands to the router: the snapshot, an empty
    [csrf] map and no call issued yet by a handler. *)
Definition startup (client_id redirect_url site_key secret_key : string)
    (summary : string -> option RoomSummary) (joined_rooms : list string)
    : option World :=
  match build_rooms summary ∅ joined_rooms with
  | None => None
  | Some rs =>
      Some {| app := {| github_client_id := client_id;
                        github_redirect_url := redirect_url;
                        rooms := rs;
                        turnstile_site_key := site_key;
                        turnstile_secret_key := secret_key |};
              csrf := ∅; calls := [] |}
  end.

(** ** Serving a sequence of requests *)

Inductive Request :=
| ReqIndex
| ReqInvite (env : InviteEnv) (form : Invite)
| ReqCallback (env : CallbackEnv) (query : Callback).

Inductive Response :=
| RespIndex (r : result (list RoomInfo * string))
| RespInvite (r : result string)
| RespCallback (r : result string).

(** The router: [/] to [index], [/invite] to [invite], [/callback] to
    [callback]. *)
Definition handle (rq : Request) (w : World) : World * Response :=
  match rq with
  | ReqIndex => let '(w', r) := index w in (w', RespIndex r)
  | ReqInvite env f => let '(w', r) := invite env f w in (w', RespInvite r)
  | ReqCallback env q => let '(w', r) := callback env q w in (w', RespCallback r)
  end.

Fixpoint run (w : World) (rqs : list Request) : World * list Response :=
  match rqs with
  | [] => (w, [])
  | rq :: rest =>
      let '(w1, r) := handle rq w in
      let '(w2, rs) := run w1 rest in
      (w2, r :: rs)
  end.

(** Number of callbacks in [rqs] that find their [state] in the [csrf]
    map, i.e. that claim the pending invite stored under token [t]. *)
Fixpoint claims (t : string) (w : World) (rqs : list Request) : nat :=
  match rqs with
  | [] => 0
  | rq :: rest =>
      let hit := match rq with
                 | ReqCallback _ q =>
                     if String.eqb (state q) t
                     then (if csrf w !! t then 1 else 0)%nat else 0%nat
                 | _ => 0%nat
                 end in
      (hit + claims t (fst (handle rq w)) rest)%nat
  end.

(** Number of [POST /invite] requests whose [CsrfToken::new_random]
    drew token [t]. *)
Fixpoint draws (t : string) (rqs : list Request) : nat :=
  match rqs with
  | [] => 0
  | ReqInvite env _ :: rest =>
      ((if String.eqb (iv_new_random env) t then 1 else 0) + draws t rest)%nat
  | _ :: rest => draws t rest
  end.

(** Number of times token [t] is handed out: present at the start, plus
    one per draw. *)
Definition token_supply (t : string) (w : World) (rqs : list Request) : nat :=
  ((if csrf w !! t then 1 else 0) + draws t rqs)%nat.

(** ** Join Challenge Engine *)

Module JoinChallenge.

(** Modelled from the spec: the bot process of the repository (the Join
    Challenge Engine of spec section 4.2 and the challenge assignment of
    section 3), whose source is not part of src/.  Events of the watched
    rooms' stream, as the spec lists them. *)
Inductive Event :=
| MemberJoin (sender room event_id : string) (origin_server_ts : Z)
| ReactionAdded (sender room relates_to key : string)
| OtherEvent.

(** Modelled from the spec: the actions the engine issues towards the
    room service. *)
Inductive Action :=
| PostChallenge (room reply_to user symbol : string)
| OverrideUserLevel (room user : string) (level : Z).

(** Modelled from the spec: what the engine reads from the room service. *)
Record EngineCtx := {
  bot_user_id : string;
  protected_rooms : list string;
  sender_of : string -> option string;     (** author of an event id *)
  default_send_level : string -> Z;        (** per room *)
}.

(** Modelled from the spec: the staleness bound, 600 s in milliseconds
    (the unit of Matrix [origin_server_ts]). *)
Definition stale_bound_ms : Z := 600 * 1000.

Section Engine.

(** The fixed alphabet of challenge symbols and the stable hash. *)
Variable alphabet : list string.
Variable hash : string -> nat.

(** Modelled from the spec: the challenge assignment, a stable hash of
    the user identifier reduced modulo the alphabet size. *)
Definition challenge_symbol (u : string) : string :=
  nth (hash u mod length alphabet) alphabet "".

Definition is_protected (ctx : EngineCtx) (room : string) : bool :=
  existsb (String.eqb room) (protected_rooms ctx).

(** Modelled from the spec: one event, handled at processing time [now]
    (milliseconds). *)
Definition handle_event (ctx : EngineCtx) (now : Z) (ev : Event) : list Action :=
  match ev with
  | MemberJoin sender room eid ts =>
      if negb (is_protected ctx room) then []
      else if stale_bound_ms <? now - ts then []
      else [PostChallenge room eid sender (challenge_symbol sender)]
  | ReactionAdded sender room target key =>
      if is_protected ctx room
         && String.eqb key (challenge_symbol sender)
         && bool_decide (sender_of ctx target = Some (bot_user_id ctx))
      then [OverrideUserLevel room sender (default_send_level ctx room)]
      else []
  | OtherEvent => []
  end.

(** Modelled from the spec: the consumer loop over the event stream,
    each event paired with the time it is processed. *)
Fixpoint run_engine (ctx : EngineCtx) (stream : list (Z * Event)) : list Action :=
  match stream with
  | [] => []
  | (now, ev) :: rest => handle_event ctx now ev ++ run_engine ctx rest
  end.

End Engine.

End JoinChallenge.

(** ** [lib.rs]: the room table of [index]

    [lib.rs] declares the same [AppState] rooms map and renders it with
    maud; the dynamic cells of each table row are the radio value, the
    name, the alias, the join rule and the id of one room. *)

Module Lib.

(** [Display for SpaceRoomJoinRule] *)
Definition join_rule_str (j : SpaceRoomJoinRule) : string :=
  match j with
  | JRInvite => "invite"
  | JRKnock => "knock"
  | JRPrivate => "private"
  | JRPublic => "public"
  | JRRestricted => "restricted"
  | JRKnockRestricted => "knock_restricted"
  | JRCustom s => s
  end.

Record Row := {
  radio_value : string;
  name_cell : string;
  alias_cell : string;
  join_rule_cell : string;
  id_cell : string;
}.

(** One [tr] of [@for room in &rooms]. *)
Definition row (room : RoomInfo) : Row :=
  {| radio_value := room_id_of room;
     name_cell := default "" (name room);
     alias_cell := default "" (canonical_alias room);
     join_rule_cell := join_rule_str (join_rule room);
     id_cell := room_id_of room |}.

(** [state.rooms.values().collect::<Vec<_>>()], one row each. *)
Definition index_rows (a : AppState) : list Row :=
  row <$> (snd <$> map_to_list (rooms a)).

End Lib.

(** ** Counting *)

(** Number of invite calls to the homeserver in a call log. *)
Fixpoint invite_calls (l : list Call) : nat :=
  match l with
  | [] => 0
  | InviteUser _ _ :: rest => S (invite_calls rest)
  | _ :: rest => invite_calls rest
  end.

(** Number of [POST /invite] answered with a redirect. *)
Fixpoint redirects (rs : list Response) : nat :=
  match rs with
  | [] => 0
  | RespInvite (Ok _) :: rest => S (redirects rest)
  | _ :: rest => redirects rest
  end.

(** A pending or invited form whose submission is among [F], passed
    Turnstile, and names a room of the snapshot [a]. *)
Definition verified_submission (a : AppState) (F : list Request) (inv : Invite) : Prop :=
  exists env, In (ReqInvite env inv) F /\ iv_turnstile env = Decoded true /\
              is_Some (rooms a !! room_id inv).

(** The invariant kept by serving requests [F]: every pending invite and
    every invite call comes from a verified submission. *)
Definition provenance (a : AppState) (F : list Request) (w : World) : Prop :=
  (forall tok inv, csrf w !! tok = Some inv -> verified_submission a F inv) /\
  (forall r u, In (InviteUser r u) (calls w) ->
     exists inv, verified_submission a F inv /\ r = room_id inv /\ u = user_id inv).

(** ** Sample inputs *)

Module Sample.

Definition room : RoomInfo :=
  {| room_id_of := "!r:example.org"; canonical_alias := Some "#r:example.org";
     name := Some "R"; join_rule := JRPublic |}.

Definition app0 : AppState :=
  {| github_client_id := "cid"; github_redirect_url := "https://bouncer.example.org/callback";
     rooms := <["!r:example.org" := room]> ∅;
     turnstile_site_key := "site"; turnstile_secret_key := "secret" |}.

Definition world0 : World := {| app := app0; csrf := ∅; calls := [] |}.

(** A form for the known room and one for a room outside the snapshot. *)
Definition form : Invite :=
  {| room_id := "!r:example.org"; user_id := "@bot:matrix.org";
     cf_turnstile_response := "proof" |}.
Definition form_unknown : Invite :=
  {| room_id := "!x:example.org"; user_id := "@bot:matrix.org";
     cf_turnstile_response := "proof" |}.

Definition iv_pass : InviteEnv :=
  {| iv_turnstile := Decoded true; iv_new_random := "tok1" |}.
Definition iv_reject : InviteEnv :=
  {| iv_turnstile := Decoded false; iv_new_random := "tok1" |}.

(** [world0] with [form] parked under ["tok1"]. *)
Definition world_pending : World :=
  {| app := app0; csrf := <["tok1" := form]> ∅; calls := [] |}.

Definition query : Callback := {| code := "c"; state := "tok1" |}.

(** A GitHub account created [age] nanoseconds before [now]. *)
Definition now0 : Z := 1700000000 * 1000000000.
Definition cb_env (age : Z) (prof : MatrixResult (option string))
    (inv : MatrixResult unit) : CallbackEnv :=
  {| cb_exchange := Some "gho_token";
     cb_github := Some (Decoded {| login := "octocat"; created_at := now0 - age |});
     cb_now := now0; cb_profile := prof; cb_invite := inv |}.

(** Two hours, in nanoseconds. *)
Definition two_hours : Z := 7200 * 1000000000.

(** A room directory with one joined room. *)
Definition summary (r : string) : option RoomSummary :=
  Some {| sm_room_id := r; sm_canonical_alias := None; sm_name := Some "R";
          sm_join_rule := JRInvite |}.

(** Seven challenge symbols and a stable hash (the length). *)
Definition alphabet : list string := ["A"; "B"; "C"; "D"; "E"; "F"; "G"].
Definition hash (s : string) : nat := String.length s.

Definition ctx : JoinChallenge.EngineCtx :=
  {| JoinChallenge.bot_user_id := "@bouncer:example.org";
     JoinChallenge.protected_rooms := ["!r:example.org"];
     JoinChallenge.sender_of := fun _ => Some "@bouncer:example.org";
     JoinChallenge.default_send_level := fun _ => 0 |}.

End Sample.

(** * Properties *)

(** Unfold the handler monad and its primitives. *)
Ltac unfold_m :=
  unfold index, invite, callback, mbind, M_bind, mret, M_ret, fail, get_app,
    emit, csrf_remove, csrf_insert; simpl.

(** ** Effects of each handler on the world *)

Lemma index_world (w : World) : fst (index w) = w.
Proof. destruct w. reflexivity. Qed.

Lemma invite_app (env : InviteEnv) (inv : Invite) (w : World) :
  app (fst (invite env inv w)) = app w.
Proof. unfold_m. repeat case_match; reflexivity. Qed.

Lemma invite_csrf (env : InviteEnv) (inv : Invite) (w : World) :
  csrf (fst (invite env inv w)) = csrf w \/
  csrf (fst (invite env inv w)) = <[iv_new_random env := inv]> (csrf w).
Proof. unfold_m. repeat case_match; simpl; auto. Qed.

Lemma callback_app (env : CallbackEnv) (q : Callback) (w : World) :
  app (fst (callback env q w)) = app w.
Proof. unfold_m. repeat case_match; reflexivity. Qed.

Lemma callback_csrf (env : CallbackEnv) (q : Callback) (w : World) :
  csrf (fst (callback env q w)) = delete (state q) (csrf w).
Proof. unfold_m. repeat case_match; reflexivity. Qed.

Lemma handle_app (rq : Request) (w : World) : app (fst (handle rq w)) = app w.
Proof.
  destruct rq as [|env f|env q]; simpl.
  - reflexivity.
  - pose proof (invite_app env f w). destruct (invite env f w). exact H.
  - pose proof (callback_app env q w). destruct (callback env q w). exact H.
Qed.

Lemma run_app (w : World) (rqs : list Request) : app (fst (run w rqs)) = app w.
Proof.
  revert w. induction rqs as [|rq rest IH]; intros w; simpl; [reflexivity|].
  destruct (handle rq w) as [w1 r] eqn:Hh.
  specialize (IH w1). destruct (run w1 rest) as [w2 rs]. simpl in *.
  rewrite IH. pose proof (handle_app rq w) as Ha. rewrite Hh in Ha. exact Ha.
Qed.

(** A callback whose token is absent issues no external call and
    answers [400 "invalid csrf token"]. *)
Lemma callback_absent (env : CallbackEnv) (q : Callback) (w : World) :
  csrf w !! state q = None ->
  callback env q w =
    ({| app := app w; csrf := delete (state q) (csrf w); calls := calls w |},
     Err 400 "invalid csrf token").
Proof. intros H. unfold_m. rewrite H. reflexivity. Qed.

(** Each claim consumes one handed-out token. *)
Lemma claims_le_supply (t : string) (w : World) (rqs : list Request) :
  (claims t w rqs <= token_supply t w rqs)%nat.
Proof.
  revert w. induction rqs as [|rq rest IH]; intros w; unfold token_supply in *;
    simpl; [lia|].
  specialize (IH (fst (handle rq w))).
  destruct rq as [|env f|env q]; simpl in *.
  - exact IH.
  - destruct (invite env f w) as [w' r] eqn:Hi. simpl in IH.
    pose proof (invite_csrf env f w) as Hc. rewrite Hi in Hc. simpl in Hc. cbn [fst].
    destruct Hc as [Hc|Hc]; rewrite Hc in IH.
    + destruct (String.eqb (iv_new_random env) t); simpl;
        destruct (csrf w !! t); lia.
    + destruct (String.eqb (iv_new_random env) t) eqn:Ht; simpl.
      * apply String.eqb_eq in Ht. rewrite Ht, lookup_insert_eq in IH.
        destruct (csrf w !! t); lia.
      * apply String.eqb_neq in Ht. rewrite lookup_insert_ne in IH by exact Ht.
        destruct (csrf w !! t); lia.
  - destruct (callback env q w) as [w' r] eqn:Hcb. simpl in IH.
    pose proof (callback_csrf env q w) as Hc. rewrite Hcb in Hc. simpl in Hc. cbn [fst].
    rewrite Hc in IH.
    destruct (String.eqb (state q) t) eqn:Ht.
    + apply String.eqb_eq in Ht. subst t. rewrite lookup_delete_eq in IH.
      destruct (csrf w !! state q); simpl in *; lia.
    + apply String.eqb_neq in Ht. rewrite lookup_delete_ne in IH by exact Ht.
      destruct (csrf w !! t); lia.
Qed.

Lemma run_engine_cons (alphabet : list string) (hash : string -> nat)
    (ctx : JoinChallenge.EngineCtx) (now : Z) (ev : JoinChallenge.Event)
    (rest : list (Z * JoinChallenge.Event)) :
  JoinChallenge.run_engine alphabet hash ctx ((now, ev) :: rest) =
  JoinChallenge.handle_event alphabet hash ctx now ev
  ++ JoinChallenge.run_engine alphabet hash ctx rest.
Proof. reflexivity. Qed.

(** ** Invite gate: [POST /invite] *)

(** C1 (as amended): for a form whose [room_id] is not in the snapshot,
    [invite] first calls Turnstile exactly once, then rejects: with the
    verification error (500 or 403) when verification does not pass,
    and with [400 "invalid room_id"] when it does.  No other external
    call is made and no pending invite is stored. *)
Theorem invite_unknown_room (env : InviteEnv) (inv : Invite) (w : World) :
  rooms (app w) !! room_id inv = None ->
  app (fst (invite env inv w)) = app w /\
  csrf (fst (invite env inv w)) = csrf w /\
  calls (fst (invite env inv w)) =
    calls w ++ [TurnstileSiteverify (turnstile_secret_key (app w))
                                    (cf_turnstile_response inv)] /\
  snd (invite env inv w) =
    match iv_turnstile env with
    | SendError _ => Err 500 "failed to verify turnstile response"
    | DecodeError _ => Err 500 "failed to decode turnstile verify result"
    | Decoded false => Err 403 "turnstile verification failed"
    | Decoded true => Err 400 "invalid room_id"
    end.
Proof.
  intros Hroom. unfold_m.
  destruct (iv_turnstile env) as [e|e|[]]; simpl; try rewrite Hroom;
    repeat split.
Qed.

Lemma invite_unknown_room_witness :
  rooms (app Sample.world0) !! room_id Sample.form_unknown = None /\
  snd (invite Sample.iv_pass Sample.form_unknown Sample.world0)
    = Err 400 "invalid room_id".
Proof.
  split; [reflexivity|].
  destruct (invite_unknown_room Sample.iv_pass Sample.form_unknown Sample.world0)
    as (_ & _ & _ & H); [reflexivity|].
  exact H.
Defined.

(** C1 counterexample: for a room outside the snapshot the verification
    adapter is called (Turnstile [siteverify] appears in the call log)
    before the room is rejected. *)
Lemma invite_unknown_room_calls_verifier :
  calls (fst (invite Sample.iv_pass Sample.form_unknown Sample.world0))
    = [TurnstileSiteverify "secret" "proof"] /\
  snd (invite Sample.iv_pass Sample.form_unknown Sample.world0)
    = Err 400 "invalid room_id".
Proof. split; reflexivity. Qed.

(** C4: when Turnstile does not answer [success = true] (negative answer,
    send error or decode error), [invite] rejects: 403 on a negative
    answer.  The [csrf] map is unchanged (no redirect is parked) and the
    only external call is the single [siteverify] request: no retry and
    no invite. *)
Theorem invite_verification_blocks (env : InviteEnv) (inv : Invite) (w : World) :
  iv_turnstile env <> Decoded true ->
  (exists s m, snd (invite env inv w) = Err s m) /\
  (iv_turnstile env = Decoded false ->
   snd (invite env inv w) = Err 403 "turnstile verification failed") /\
  csrf (fst (invite env inv w)) = csrf w /\
  calls (fst (invite env inv w)) =
    calls w ++ [TurnstileSiteverify (turnstile_secret_key (app w))
                                    (cf_turnstile_response inv)].
Proof.
  intros Hneg. unfold_m.
  destruct (iv_turnstile env) as [e|e|[]] eqn:Ht; simpl.
  - repeat split; eauto; discriminate.
  - repeat split; eauto; discriminate.
  - congruence.
  - repeat split; eauto.
Qed.

Lemma invite_verification_blocks_witness :
  iv_turnstile Sample.iv_reject <> Decoded true /\
  snd (invite Sample.iv_reject Sample.form Sample.world0)
    = Err 403 "turnstile verification failed".
Proof.
  split; [discriminate|].
  destruct (invite_verification_blocks Sample.iv_reject Sample.form Sample.world0)
    as (_ & H & _); [discriminate|].
  apply H. reflexivity.
Defined.

(** C8: when Turnstile passes and the room is in the snapshot, [invite]
    parks the form under the freshly drawn token (one insert, every
    other entry unchanged), issues no call besides [siteverify] (in
    particular no invite) and redirects to the GitHub authorize URL. *)
Theorem invite_parks_pending (env : InviteEnv) (inv : Invite) (w : World)
    (ri : RoomInfo) :
  iv_turnstile env = Decoded true ->
  rooms (app w) !! room_id inv = Some ri ->
  invite env inv w =
    ({| app := app w;
        csrf := <[iv_new_random env := inv]> (csrf w);
        calls := calls w ++ [TurnstileSiteverify (turnstile_secret_key (app w))
                                                 (cf_turnstile_response inv)] |},
     Ok (authorize_url (app w) (iv_new_random env))) /\
  (forall k, k <> iv_new_random env ->
     csrf (fst (invite env inv w)) !! k = csrf w !! k).
Proof.
  intros Ht Hr.
  assert (Heq : invite env inv w =
    ({| app := app w;
        csrf := <[iv_new_random env := inv]> (csrf w);
        calls := calls w ++ [TurnstileSiteverify (turnstile_secret_key (app w))
                                                 (cf_turnstile_response inv)] |},
     Ok (authorize_url (app w) (iv_new_random env)))).
  { unfold_m. rewrite Ht. simpl. rewrite Hr. reflexivity. }
  split; [exact Heq|].
  intros k Hk. rewrite Heq. simpl. by rewrite lookup_insert_ne.
Qed.

Lemma invite_parks_pending_witness :
  snd (invite Sample.iv_pass Sample.form Sample.world0)
    = Ok (authorize_url Sample.app0 "tok1").
Proof.
  destruct (invite_parks_pending Sample.iv_pass Sample.form Sample.world0 Sample.room)
    as [H _]; [reflexivity|reflexivity|].
  rewrite H. reflexivity.
Defined.

(** ** Invite gate: [GET /callback] *)

(** C3: pending-invite tokens are single-use.  Over any sequence of
    requests in which token [t] is handed out at most once, at most one
    callback claims it; and a second callback with the same [state]
    always gets the terminal [400 "invalid csrf token"] rejection (the
    spec's "invalid or expired token"), whatever happened in the first. *)
Theorem callback_token_single_use (t : string) (w : World) (rqs : list Request) :
  (token_supply t w rqs <= 1)%nat ->
  (claims t w rqs <= 1)%nat /\
  (forall (env1 env2 : CallbackEnv) (c1 c2 : string),
     snd (callback env2 {| code := c2; state := t |}
            (fst (callback env1 {| code := c1; state := t |} w)))
     = Err 400 "invalid csrf token").
Proof.
  intros Hs. split.
  - pose proof (claims_le_supply t w rqs). lia.
  - intros env1 env2 c1 c2.
    rewrite callback_absent; [reflexivity|].
    rewrite callback_csrf. simpl. apply lookup_delete_eq.
Qed.

Lemma callback_token_single_use_witness :
  (claims "tok1" Sample.world0
     [ReqInvite Sample.iv_pass Sample.form;
      ReqCallback (Sample.cb_env Sample.two_hours (MatrixOk None) (MatrixOk tt)) Sample.query;
      ReqCallback (Sample.cb_env Sample.two_hours (MatrixOk None) (MatrixOk tt)) Sample.query]
   <= 1)%nat.
Proof.
  apply (callback_token_single_use "tok1" Sample.world0). vm_compute. lia.
Defined.

(** C6: [callback] removes the pending invite before any external call
    and never puts it back: whatever the outcome (exchange failure,
    GitHub failure, heuristic rejection, profile or invite failure, or
    success) the map afterwards is the old map without [state], and a
    retry with the same [state] gets [400 "invalid csrf token"] without
    any external call. *)
Theorem callback_consumes_token (env : CallbackEnv) (q : Callback) (w : World)
    (env' : CallbackEnv) (c' : string) :
  csrf (fst (callback env q w)) = delete (state q) (csrf w) /\
  callback env' {| code := c'; state := state q |} (fst (callback env q w)) =
    ({| app := app (fst (callback env q w));
        csrf := csrf (fst (callback env q w));
        calls := calls (fst (callback env q w)) |},
     Err 400 "invalid csrf token").
Proof.
  split; [apply callback_csrf|].
  rewrite callback_absent.
  - simpl. rewrite callback_csrf. by rewrite delete_delete_eq.
  - simpl. rewrite callback_csrf. apply lookup_delete_eq.
Qed.

(** The age heuristic: once the callback reaches it, the answer is
    [403] exactly when the Matrix user is on matrix.org and the GitHub
    account is at most one day old ([age.le(&Duration::days(1))]). *)
Lemma callback_heuristic_iff (env : CallbackEnv) (q : Callback) (w : World)
    (inv : Invite) (token : string) (u : GitHubUser) :
  csrf w !! state q = Some inv ->
  cb_exchange env = Some token ->
  cb_github env = Some (Decoded u) ->
  (snd (callback env q w) = Err 403 "" <->
   String.eqb (server_name (user_id inv)) "matrix.org"
   && (cb_now env - created_at u <=? one_day) = true).
Proof.
  intros Hq He Hg. unfold_m. rewrite Hq, He, Hg. simpl.
  destruct (String.eqb (server_name (user_id inv)) "matrix.org"
            && (cb_now env - created_at u <=? one_day)); simpl.
  - tauto.
  - split; [|discriminate].
    destruct (cb_profile env); simpl; [destruct (cb_invite env)|]; discriminate.
Qed.

(** C2 (at the failing input): a matrix.org user whose GitHub account is
    exactly one day old is rejected with 403 by the heuristic, before
    the profile fetch and the invite. *)
Lemma callback_one_day_old_rejected :
  callback (Sample.cb_env one_day (MatrixOk None) (MatrixOk tt))
           Sample.query Sample.world_pending =
    ({| app := Sample.app0; csrf := ∅;
        calls := [ExchangeCode "c"; GetGithubUser "gho_token"] |},
     Err 403 "").
Proof. vm_compute. reflexivity. Qed.

(** The spec's scenario: [@bot:matrix.org] with a two-hour-old GitHub
    account is rejected with 403. *)
Lemma callback_two_hours_old_rejected :
  snd (callback (Sample.cb_env Sample.two_hours (MatrixOk None) (MatrixOk tt))
                Sample.query Sample.world_pending) = Err 403 "".
Proof. vm_compute. reflexivity. Qed.

(** C5 (as amended): once the heuristic lets the callback through, a
    failed profile fetch aborts with [500 "failed to get user profile"]
    before any invite call; after a successful profile fetch exactly one
    invite call is issued, and an invite error of the homeserver is
    replaced by [500 "failed to invite user"] (whatever its status and
    errcode).  Over every callback (any environment, query and world),
    that message is answered only when the invite call was issued for
    the pending invite and the homeserver refused it: no other failure
    of [callback] uses it. *)
Theorem callback_profile_then_invite (env : CallbackEnv) (q : Callback) (w : World)
    (inv : Invite) (token : string) (u : GitHubUser) :
  csrf w !! state q = Some inv ->
  cb_exchange env = Some token ->
  cb_github env = Some (Decoded u) ->
  String.eqb (server_name (user_id inv)) "matrix.org"
  && (cb_now env - created_at u <=? one_day) = false ->
  (match cb_profile env with
   | MatrixErr _ _ =>
       calls (fst (callback env q w)) =
         calls w ++ [ExchangeCode (code q); GetGithubUser token; GetProfile (user_id inv)] /\
       snd (callback env q w) = Err 500 "failed to get user profile"
   | MatrixOk displayname =>
       calls (fst (callback env q w)) =
         calls w ++ [ExchangeCode (code q); GetGithubUser token; GetProfile (user_id inv);
                     InviteUser (room_id inv) (user_id inv)] /\
       snd (callback env q w) =
         match cb_invite env with
         | MatrixErr _ _ => Err 500 "failed to invite user"
         | MatrixOk _ => Ok (success_msg (default "" displayname) inv)
         end
   end) /\
  (forall (env' : CallbackEnv) (q' : Callback) (w' : World),
     snd (callback env' q' w') = Err 500 "failed to invite user" ->
     exists inv' dn st ec,
       csrf w' !! state q' = Some inv' /\
       cb_profile env' = MatrixOk dn /\
       cb_invite env' = MatrixErr st ec /\
       In (InviteUser (room_id inv') (user_id inv')) (calls (fst (callback env' q' w')))).
Proof.
  intros Hq He Hg Hh. split.
  - unfold_m. rewrite Hq, He, Hg. simpl. rewrite Hh.
    destruct (cb_profile env) as [dn|s m]; simpl.
    + destruct (cb_invite env); simpl; rewrite <- !app_assoc; auto.
    + rewrite <- !app_assoc. auto.
  - intros env' q' w'. unfold_m.
    destruct (csrf w' !! state q') as [inv'|] eqn:Hq'; simpl; [|discriminate].
    destruct (cb_exchange env') as [token'|]; simpl; [|discriminate].
    destruct (cb_github env') as [[e|e|user]|]; simpl; try discriminate.
    destruct (String.eqb (server_name (user_id inv')) "matrix.org"
              && (cb_now env' - created_at user <=? one_day)); simpl; [discriminate|].
    destruct (cb_profile env') as [dn|st e]; simpl; [|discriminate].
    destruct (cb_invite env') as [x|st ec] eqn:Hi; simpl; [discriminate|].
    intros _. exists inv', dn, st, ec. repeat split; auto.
    rewrite !in_app_iff. right. left. reflexivity.
Qed.

Lemma callback_profile_then_invite_witness :
  snd (callback (Sample.cb_env (2 * one_day) (MatrixErr 404 "M_NOT_FOUND") (MatrixOk tt))
                Sample.query Sample.world_pending) = Err 500 "failed to get user profile".
Proof.
  pose proof (callback_profile_then_invite
                (Sample.cb_env (2 * one_day) (MatrixErr 404 "M_NOT_FOUND") (MatrixOk tt))
                Sample.query Sample.world_pending Sample.form "gho_token"
                {| login := "octocat"; created_at := Sample.now0 - 2 * one_day |})
    as H.
  simpl in H. destruct H as [[_ H] _]; [reflexivity|reflexivity|reflexivity|vm_compute; reflexivity|].
  exact H.
Defined.

(** C5 counterexample: the homeserver refuses the invite with
    [403 M_FORBIDDEN] (user already invited); the callback answers
    [500 "failed to invite user"], not the collaborator's error. *)
Lemma callback_invite_error_replaced :
  snd (callback (Sample.cb_env (2 * one_day) (MatrixOk None) (MatrixErr 403 "M_FORBIDDEN"))
                Sample.query Sample.world_pending) = Err 500 "failed to invite user" /\
  Err 500 "failed to invite user" <> (Err 403 "M_FORBIDDEN" : result string).
Proof. split; [vm_compute; reflexivity | discriminate]. Qed.

(** ** Room snapshot *)

(** C7: the room snapshot is built once by [main] and no handler changes
    it: after any sequence of requests served from the startup world,
    the rooms map (every room id and its cached alias, name and join
    rule), like the rest of [AppState], is the one [main] built. *)
Theorem rooms_snapshot_read_only (client_id redirect_url site_key secret_key : string)
    (summary : string -> option RoomSummary) (joined_rooms : list string)
    (w0 : World) (rqs : list Request) :
  startup client_id redirect_url site_key secret_key summary joined_rooms = Some w0 ->
  exists rs,
    build_rooms summary ∅ joined_rooms = Some rs /\
    rooms (app w0) = rs /\
    app (fst (run w0 rqs)) = app w0 /\
    rooms (app (fst (run w0 rqs))) = rs.
Proof.
  unfold startup. intros Hs.
  destruct (build_rooms summary ∅ joined_rooms) as [rs|] eqn:Hb; [|discriminate].
  injection Hs as <-. exists rs.
  rewrite run_app. simpl. auto.
Qed.

Lemma rooms_snapshot_read_only_witness :
  exists rs,
    build_rooms Sample.summary ∅ ["!r:example.org"] = Some rs /\
    rooms (app (fst (run {| app := {| github_client_id := "cid";
                                      github_redirect_url := "u";
                                      rooms := rs;
                                      turnstile_site_key := "site";
                                      turnstile_secret_key := "secret" |};
                            csrf := ∅; calls := [] |}
                         [ReqIndex; ReqInvite Sample.iv_pass Sample.form]))) = rs.
Proof.
  destruct (rooms_snapshot_read_only "cid" "u" "site" "secret" Sample.summary
              ["!r:example.org"]
              {| app := {| github_client_id := "cid";
                           github_redirect_url := "u";
                           rooms := <["!r:example.org" :=
                                      {| room_id_of := "!r:example.org";
                                         canonical_alias := None;
                                         name := Some "R";
                                         join_rule := JRInvite |}]> ∅;
                           turnstile_site_key := "site";
                           turnstile_secret_key := "secret" |};
                 csrf := ∅; calls := [] |}
              [ReqIndex; ReqInvite Sample.iv_pass Sample.form])
    as (rs & Hb & Hr & _ & Hrun); [reflexivity|].
  exists rs. split; [exact Hb|]. simpl in Hr. subst rs. exact Hrun.
Defined.

(** ** Join Challenge Engine *)

(** C10: a join event older than the staleness bound (600 s) is
    discarded without action: it produces no action at all, and removing
    it from the event stream leaves the engine's output unchanged, so no
    challenge is ever posted for it. *)
Theorem stale_join_discarded (alphabet : list string) (hash : string -> nat)
    (ctx : JoinChallenge.EngineCtx) (pre post : list (Z * JoinChallenge.Event))
    (now : Z) (sender room eid : string) (ts : Z) :
  JoinChallenge.stale_bound_ms < now - ts ->
  JoinChallenge.handle_event alphabet hash ctx now
    (JoinChallenge.MemberJoin sender room eid ts) = [] /\
  JoinChallenge.run_engine alphabet hash ctx
    (pre ++ (now, JoinChallenge.MemberJoin sender room eid ts) :: post)
  = JoinChallenge.run_engine alphabet hash ctx (pre ++ post).
Proof.
  intros Hst.
  assert (Hh : JoinChallenge.handle_event alphabet hash ctx now
                 (JoinChallenge.MemberJoin sender room eid ts) = []).
  { unfold JoinChallenge.handle_event.
    destruct (negb (JoinChallenge.is_protected ctx room)); [reflexivity|].
    apply Z.ltb_lt in Hst. rewrite Hst. reflexivity. }
  split; [exact Hh|].
  induction pre as [|[t ev] pre IH]; rewrite ?app_nil_l, <- ?app_comm_cons.
  - rewrite run_engine_cons, Hh. reflexivity.
  - rewrite !run_engine_cons, IH. reflexivity.
Qed.

Lemma stale_join_discarded_witness :
  JoinChallenge.run_engine Sample.alphabet Sample.hash Sample.ctx
    [(1000000, JoinChallenge.MemberJoin "@alice:example.org" "!r:example.org" "$j" 0)]
  = [].
Proof.
  destruct (stale_join_discarded Sample.alphabet Sample.hash Sample.ctx [] []
              1000000 "@alice:example.org" "!r:example.org" "$j" 0) as [_ H].
  - vm_compute. reflexivity.
  - exact H.
Defined.

(** * Further properties of the code *)

(** ** Startup: building the room snapshot *)

Lemma build_rooms_keys (summary : string -> option RoomSummary)
    (acc rs : gmap string RoomInfo) (joined : list string) :
  build_rooms summary acc joined = Some rs ->
  (forall k ri, acc !! k = Some ri -> room_id_of ri = k) ->
  forall k ri, rs !! k = Some ri -> room_id_of ri = k.
Proof.
  revert acc. induction joined as [|room rest IH]; intros acc Hb Hacc; simpl in Hb.
  - injection Hb as <-. exact Hacc.
  - destruct (summary room) as [p|]; [|discriminate].
    apply (IH _ Hb). intros k ri Hk.
    destruct (decide (sm_room_id p = k)) as [<-|Hne].
    + rewrite lookup_insert_eq in Hk. injection Hk as <-. reflexivity.
    + rewrite lookup_insert_ne in Hk by exact Hne. exact (Hacc k ri Hk).
Qed.

Lemma build_rooms_dom (summary : string -> option RoomSummary)
    (acc rs : gmap string RoomInfo) (joined : list string) :
  build_rooms summary acc joined = Some rs ->
  forall k, is_Some (rs !! k) <->
    is_Some (acc !! k) \/
    exists r p, In r joined /\ summary r = Some p /\ sm_room_id p = k.
Proof.
  revert acc. induction joined as [|room rest IH]; intros acc Hb k; simpl in Hb.
  - injection Hb as <-. split; [auto|]. intros [H|(r & p & [] & _)]. exact H.
  - destruct (summary room) as [p0|] eqn:Hs; [|discriminate].
    rewrite (IH _ Hb k). split.
    + intros [H|(r & p & Hin & Hr & Hk)].
      * destruct (decide (sm_room_id p0 = k)) as [<-|Hne].
        -- right. exists room, p0. simpl. auto.
        -- left. rewrite lookup_insert_ne in H by exact Hne. exact H.
      * right. exists r, p. simpl. auto.
    + intros [H|(r & p & [<-|Hin] & Hr & Hk)].
      * left. destruct (decide (sm_room_id p0 = k)) as [<-|Hne].
        -- rewrite lookup_insert_eq. eauto.
        -- rewrite lookup_insert_ne by exact Hne. exact H.
      * left. rewrite Hs in Hr. injection Hr as <-. subst k.
        rewrite lookup_insert_eq. eauto.
      * right. exists r, p. auto.
Qed.

Lemma startup_rooms (client_id redirect_url site_key secret_key : string)
    (summary : string -> option RoomSummary) (joined_rooms : list string) (w0 : World) :
  startup client_id redirect_url site_key secret_key summary joined_rooms = Some w0 ->
  build_rooms summary ∅ joined_rooms = Some (rooms (app w0)) /\
  csrf w0 = ∅ /\ calls w0 = [].
Proof.
  unfold startup. destruct (build_rooms summary ∅ joined_rooms) eqn:Hb; [|discriminate].
  intros H. injection H as <-. simpl. auto.
Qed.

(** X1: in the snapshot [main] builds, each room is stored under its own
    room id: the key and the [room_id] field agree. *)
Theorem startup_room_keys (client_id redirect_url site_key secret_key : string)
    (summary : string -> option RoomSummary) (joined_rooms : list string) (w0 : World) :
  startup client_id redirect_url site_key secret_key summary joined_rooms = Some w0 ->
  forall k ri, rooms (app w0) !! k = Some ri -> room_id_of ri = k.
Proof.
  intros Hs. destruct (startup_rooms _ _ _ _ _ _ _ Hs) as (Hb & _).
  apply (build_rooms_keys summary ∅ _ joined_rooms Hb).
  intros k ri H. rewrite lookup_empty in H. discriminate.
Qed.

Lemma startup_room_keys_witness :
  room_id_of {| room_id_of := "!r:example.org"; canonical_alias := None;
                name := Some "R"; join_rule := JRInvite |} = "!r:example.org".
Proof.
  apply (startup_room_keys "cid" "u" "site" "secret" Sample.summary ["!r:example.org"]
           {| app := {| github_client_id := "cid"; github_redirect_url := "u";
                        rooms := <["!r:example.org" :=
                                   {| room_id_of := "!r:example.org"; canonical_alias := None;
                                      name := Some "R"; join_rule := JRInvite |}]> ∅;
                        turnstile_site_key := "site"; turnstile_secret_key := "secret" |};
              csrf := ∅; calls := [] |}); reflexivity.
Defined.

(** X3: the rooms of the snapshot are exactly the room ids that the
    summaries of the joined rooms report. *)
Theorem startup_room_ids (client_id redirect_url site_key secret_key : string)
    (summary : string -> option RoomSummary) (joined_rooms : list string) (w0 : World) :
  startup client_id redirect_url site_key secret_key summary joined_rooms = Some w0 ->
  forall k, is_Some (rooms (app w0) !! k) <->
    exists r p, In r joined_rooms /\ summary r = Some p /\ sm_room_id p = k.
Proof.
  intros Hs k. destruct (startup_rooms _ _ _ _ _ _ _ Hs) as (Hb & _).
  rewrite (build_rooms_dom summary ∅ _ joined_rooms Hb k), lookup_empty.
  split; [intros [[? H]|H]; [discriminate|exact H] | auto].
Qed.

Lemma startup_room_ids_witness :
  exists r p, In r ["!r:example.org"] /\ Sample.summary r = Some p /\
              sm_room_id p = "!r:example.org".
Proof.
  apply (startup_room_ids "cid" "u" "site" "secret" Sample.summary ["!r:example.org"]
           {| app := {| github_client_id := "cid"; github_redirect_url := "u";
                        rooms := <["!r:example.org" :=
                                   {| room_id_of := "!r:example.org"; canonical_alias := None;
                                      name := Some "R"; join_rule := JRInvite |}]> ∅;
                        turnstile_site_key := "site"; turnstile_secret_key := "secret" |};
              csrf := ∅; calls := [] |}); [reflexivity|].
  eexists. reflexivity.
Defined.

(** ** [index] *)

Lemma listed_rooms_iff (a : AppState) (ri : RoomInfo) :
  ri ∈ (snd <$> map_to_list (rooms a)) <-> exists k, rooms a !! k = Some ri.
Proof.
  rewrite list_elem_of_fmap. split.
  - intros ([k ri'] & -> & Hin). apply elem_of_map_to_list in Hin. eauto.
  - intros [k Hk]. exists (k, ri). split; [reflexivity|].
    by apply elem_of_map_to_list.
Qed.

(** X5: in the room table of [lib.rs]'s [index] over the snapshot [main]
    builds, there is one row per room, and each row's radio value is the
    row's id cell and a room id of the snapshot. *)
Theorem lib_index_rows_ok (client_id redirect_url site_key secret_key : string)
    (summary : string -> option RoomSummary) (joined_rooms : list string) (w0 : World) :
  startup client_id redirect_url site_key secret_key summary joined_rooms = Some w0 ->
  length (Lib.index_rows (app w0)) = size (rooms (app w0)) /\
  forall rw, rw ∈ Lib.index_rows (app w0) ->
    Lib.radio_value rw = Lib.id_cell rw /\
    is_Some (rooms (app w0) !! Lib.radio_value rw).
Proof.
  intros Hs. destruct (startup_rooms _ _ _ _ _ _ _ Hs) as (Hb & _).
  unfold Lib.index_rows. split.
  - by rewrite !length_fmap, length_map_to_list.
  - intros rw Hin. apply list_elem_of_fmap in Hin as (ri & -> & Hri).
    apply listed_rooms_iff in Hri as [k Hk]. simpl. split; [reflexivity|].
    rewrite (build_rooms_keys summary ∅ _ joined_rooms Hb) with (k := k) (ri := ri).
    + eauto.
    + intros k' ri' H. rewrite lookup_empty in H. discriminate.
    + exact Hk.
Qed.

Lemma lib_index_rows_ok_witness :
  length (Lib.index_rows
            {| github_client_id := "cid"; github_redirect_url := "u";
               rooms := <["!r:example.org" :=
                          {| room_id_of := "!r:example.org"; canonical_alias := None;
                             name := Some "R"; join_rule := JRInvite |}]> ∅;
               turnstile_site_key := "site"; turnstile_secret_key := "secret" |}) = 1%nat.
Proof.
  destruct (lib_index_rows_ok "cid" "u" "site" "secret" Sample.summary ["!r:example.org"]
           {| app := {| github_client_id := "cid"; github_redirect_url := "u";
                        rooms := <["!r:example.org" :=
                                   {| room_id_of := "!r:example.org"; canonical_alias := None;
                                      name := Some "R"; join_rule := JRInvite |}]> ∅;
                        turnstile_site_key := "site"; turnstile_secret_key := "secret" |};
              csrf := ∅; calls := [] |}) as [H _]; [reflexivity|].
  cbn [app] in H. rewrite H. reflexivity.
Defined.

(** X6: every room [index] offers from the snapshot [main] builds is
    accepted by [invite]: submitting its room id with a passing Turnstile
    answer gets the GitHub redirect, in any later world. *)
Theorem index_room_accepted_by_invite (client_id redirect_url site_key secret_key : string)
    (summary : string -> option RoomSummary) (joined_rooms : list string) (w0 w : World)
    (env : InviteEnv) (ri : RoomInfo) (uid proof : string) :
  startup client_id redirect_url site_key secret_key summary joined_rooms = Some w0 ->
  app w = app w0 ->
  iv_turnstile env = Decoded true ->
  (exists l s, snd (index w0) = Ok (l, s) /\ ri ∈ l) ->
  snd (invite env {| room_id := room_id_of ri; user_id := uid;
                     cf_turnstile_response := proof |} w)
  = Ok (authorize_url (app w) (iv_new_random env)).
Proof.
  intros Hs Happ Ht (l & s & Hi & Hin).
  destruct (startup_rooms _ _ _ _ _ _ _ Hs) as (Hb & _).
  unfold index, mbind, M_bind, mret, M_ret, get_app in Hi. simpl in Hi.
  injection Hi as <- _. apply listed_rooms_iff in Hin as [k Hk].
  assert (Hkey : room_id_of ri = k).
  { apply (build_rooms_keys summary ∅ _ joined_rooms Hb); [|exact Hk].
    intros k' ri' H. rewrite lookup_empty in H. discriminate. }
  unfold_m. rewrite Ht. simpl. rewrite Happ, Hkey, Hk. reflexivity.
Qed.

Lemma index_room_accepted_by_invite_witness :
  snd (invite Sample.iv_pass {| room_id := "!r:example.org"; user_id := "@a:example.org";
                                cf_turnstile_response := "p" |} Sample.world0)
  = Ok "https://github.com/login/oauth/authorize?response_type=code&client_id=cid&state=tok1&redirect_uri=https://bouncer.example.org/callback".
Proof.
  pose proof (index_room_accepted_by_invite "cid" "https://bouncer.example.org/callback"
           "site" "secret"
           (fun r => Some {| sm_room_id := r; sm_canonical_alias := Some "#r:example.org";
                             sm_name := Some "R"; sm_join_rule := JRPublic |})
           ["!r:example.org"] Sample.world0 Sample.world0 Sample.iv_pass Sample.room
           "@a:example.org" "p") as H.
  apply H.
  - reflexivity.
  - reflexivity.
  - reflexivity.
  - eexists _, _. split; [reflexivity|]. vm_compute. left.
Defined.

(** ** [callback] *)

Lemma server_name_user_id (l s : string) :
  (forall c, In c (String.list_ascii_of_string l) -> c <> Ascii.ascii_of_nat 58) ->
  server_name ("@" ++ l ++ ":" ++ s) = s.
Proof.
  intros Hl. simpl. induction l as [|c l IH]; simpl in *; [reflexivity|].
  destruct (Ascii.eqb c (Ascii.ascii_of_nat 58)) eqn:Hc.
  - apply Ascii.eqb_eq in Hc. exfalso. exact (Hl c (or_introl eq_refl) Hc).
  - apply IH. intros c' Hin. apply Hl. right. exact Hin.
Qed.

(** X7: for a pending invite of [@l:s] (a localpart without [':']), the
    age heuristic of [callback] answers 403 exactly when [s] is
    [matrix.org] and the GitHub account is at most one day old; any other
    server, e.g. [matrix.org.example], is never refused by it. *)
Theorem callback_heuristic_server (env : CallbackEnv) (q : Callback) (w : World)
    (inv : Invite) (token : string) (u : GitHubUser) (l s : string) :
  csrf w !! state q = Some inv ->
  user_id inv = ("@" ++ l ++ ":" ++ s)%string ->
  (forall c, In c (String.list_ascii_of_string l) -> c <> Ascii.ascii_of_nat 58) ->
  cb_exchange env = Some token ->
  cb_github env = Some (Decoded u) ->
  (snd (callback env q w) = Err 403 "" <->
   s = "matrix.org" /\ cb_now env - created_at u <= one_day).
Proof.
  intros Hq Hu Hl He Hg.
  rewrite (callback_heuristic_iff env q w inv token u Hq He Hg), Hu,
    server_name_user_id by exact Hl.
  rewrite andb_true_iff, String.eqb_eq, Z.leb_le. reflexivity.
Qed.

Lemma callback_heuristic_server_witness :
  snd (callback (Sample.cb_env Sample.two_hours (MatrixOk None) (MatrixOk tt))
                Sample.query Sample.world_pending) = Err 403 "".
Proof.
  apply (callback_heuristic_server
           (Sample.cb_env Sample.two_hours (MatrixOk None) (MatrixOk tt))
           Sample.query Sample.world_pending Sample.form "gho_token"
           {| login := "octocat"; created_at := Sample.now0 - Sample.two_hours |}
           "bot" "matrix.org").
  - reflexivity.
  - reflexivity.
  - intros c Hin. simpl in Hin.
    repeat destruct Hin as [<-|Hin]; [discriminate..|contradiction].
  - reflexivity.
  - reflexivity.
  - split; [reflexivity|]. cbn -[Z.sub Z.mul]. unfold Sample.now0, Sample.two_hours, one_day. lia.
Defined.

(** What one callback adds to the call log: at most one invite, none
    without a pending invite, and only for the pending room and user
    after the heuristic let it through. *)
Lemma callback_effect (env : CallbackEnv) (q : Callback) (w : World) :
  exists new,
    calls (fst (callback env q w)) = calls w ++ new /\
    (invite_calls new <= if csrf w !! state q then 1 else 0)%nat /\
    (forall r u, In (InviteUser r u) new ->
       exists inv gh,
         csrf w !! state q = Some inv /\ r = room_id inv /\ u = user_id inv /\
         cb_github env = Some (Decoded gh) /\
         String.eqb (server_name (user_id inv)) "matrix.org"
         && (cb_now env - created_at gh <=? one_day) = false).
Proof.
  unfold_m. destruct (csrf w !! state q) as [inv|] eqn:Hq; simpl.
  2:{ exists []. rewrite app_nil_r. split; [reflexivity|]. split; [simpl; lia|].
      intros r u []. }
  destruct (cb_exchange env) as [token|]; simpl.
  2:{ exists [ExchangeCode (code q)]. split; [reflexivity|]. split; [simpl; lia|].
      intros r u [H|[]]; discriminate. }
  destruct (cb_github env) as [gh|] eqn:Hg; simpl.
  2:{ exists [ExchangeCode (code q)]. split; [reflexivity|]. split; [simpl; lia|].
      intros r u [H|[]]; discriminate. }
  destruct gh as [e|e|user]; simpl.
  1,2: exists [ExchangeCode (code q); GetGithubUser token];
       split; [rewrite <- app_assoc; reflexivity|]; split; [simpl; lia|];
       intros r u [H|[H|[]]]; discriminate.
  destruct (String.eqb (server_name (user_id inv)) "matrix.org"
            && (cb_now env - created_at user <=? one_day)) eqn:Hh; simpl.
  1: exists [ExchangeCode (code q); GetGithubUser token];
     split; [rewrite <- app_assoc; reflexivity|]; split; [simpl; lia|];
     intros r u [H|[H|[]]]; discriminate.
  destruct (cb_profile env) as [dn|st m]; simpl.
  2:{ exists [ExchangeCode (code q); GetGithubUser token; GetProfile (user_id inv)].
      split; [rewrite <- !app_assoc; reflexivity|]. split; [simpl; lia|].
      intros r u [H|[H|[H|[]]]]; discriminate. }
  exists [ExchangeCode (code q); GetGithubUser token; GetProfile (user_id inv);
          InviteUser (room_id inv) (user_id inv)].
  split; [destruct (cb_invite env); simpl; rewrite <- !app_assoc; reflexivity|].
  split; [simpl; lia|].
  intros r u [H|[H|[H|[H|[]]]]]; try discriminate.
  injection H as <- <-. exists inv, user. auto.
Qed.

(** X8: one callback issues at most one invite call, none when its
    [state] is not pending, and only for the room and user of the pending
    invite it removed, after the GitHub user was fetched and the age
    heuristic did not fire. *)
Theorem callback_invite_guarded (env : CallbackEnv) (q : Callback) (w : World) :
  exists new,
    calls (fst (callback env q w)) = calls w ++ new /\
    (invite_calls new <= if csrf w !! state q then 1 else 0)%nat /\
    (forall r u, In (InviteUser r u) new ->
       exists inv gh,
         csrf w !! state q = Some inv /\ r = room_id inv /\ u = user_id inv /\
         cb_github env = Some (Decoded gh) /\
         String.eqb (server_name (user_id inv)) "matrix.org"
         && (cb_now env - created_at gh <=? one_day) = false).
Proof. apply callback_effect. Qed.

(** X9: a callback succeeds only after exactly four calls, in order (code
    exchange, GitHub user, Matrix profile, invite of the pending room and
    user), with both Matrix requests answered; the body names the
    profile's display name (empty if unset), the user and the room. *)
Theorem callback_success_shape (env : CallbackEnv) (q : Callback) (w : World) (m : string) :
  snd (callback env q w) = Ok m ->
  exists inv token dn,
    csrf w !! state q = Some inv /\
    cb_exchange env = Some token /\
    cb_profile env = MatrixOk dn /\
    (exists x, cb_invite env = MatrixOk x) /\
    calls (fst (callback env q w)) =
      calls w ++ [ExchangeCode (code q); GetGithubUser token; GetProfile (user_id inv);
                  InviteUser (room_id inv) (user_id inv)] /\
    m = success_msg (default "" dn) inv.
Proof.
  unfold_m. destruct (csrf w !! state q) as [inv|] eqn:Hq; simpl; [|discriminate].
  destruct (cb_exchange env) as [token|]; simpl; [|discriminate].
  destruct (cb_github env) as [[e|e|user]|]; simpl; try discriminate.
  destruct (_ && _); simpl; [discriminate|].
  destruct (cb_profile env) as [dn|st e]; simpl; [|discriminate].
  destruct (cb_invite env) as [x|st e] eqn:Hi; simpl; [|discriminate].
  intros H. injection H as <-. exists inv, token, dn.
  rewrite <- !app_assoc. eauto 10.
Qed.

Lemma callback_success_shape_witness :
  exists inv token dn,
    Sample.world_pending.(csrf) !! "tok1" = Some inv /\
    cb_exchange (Sample.cb_env (2 * one_day) (MatrixOk (Some "Bot")) (MatrixOk tt)) = Some token /\
    cb_profile (Sample.cb_env (2 * one_day) (MatrixOk (Some "Bot")) (MatrixOk tt)) = MatrixOk dn.
Proof.
  destruct (callback_success_shape
              (Sample.cb_env (2 * one_day) (MatrixOk (Some "Bot")) (MatrixOk tt))
              Sample.query Sample.world_pending
              "successfully invited user Bot (@bot:matrix.org) to room !r:example.org")
    as (inv & token & dn & H1 & H2 & H3 & _); [vm_compute; reflexivity|].
  exists inv, token, dn. auto.
Defined.

(** ** Serving sequences of requests *)

(** What one [POST /invite] does to the world: one [siteverify] call, and
    either nothing else (an error) or the form parked under the drawn
    token (a redirect, after a passing verification for a known room). *)
Lemma invite_effect (env : InviteEnv) (inv : Invite) (w : World) :
  calls (fst (invite env inv w)) =
    calls w ++ [TurnstileSiteverify (turnstile_secret_key (app w)) (cf_turnstile_response inv)] /\
  app (fst (invite env inv w)) = app w /\
  ((csrf (fst (invite env inv w)) = csrf w /\
    exists s m, snd (invite env inv w) = Err s m) \/
   (csrf (fst (invite env inv w)) = <[iv_new_random env := inv]> (csrf w) /\
    iv_turnstile env = Decoded true /\ is_Some (rooms (app w) !! room_id inv) /\
    snd (invite env inv w) = Ok (authorize_url (app w) (iv_new_random env)))).
Proof.
  unfold_m. destruct (iv_turnstile env) as [e|e|[]] eqn:Ht; simpl.
  1,2,4: repeat split; left; eauto.
  destruct (rooms (app w) !! room_id inv) eqn:Hr; simpl.
  - repeat split. right. eauto.
  - repeat split. left. eauto.
Qed.

Lemma verified_submission_mono (a : AppState) (F G : list Request) (inv : Invite) :
  verified_submission a F inv -> verified_submission a (F ++ G) inv.
Proof.
  intros (env & Hin & Ht & Hr). exists env. rewrite in_app_iff. auto.
Qed.

Lemma provenance_handle (a : AppState) (F : list Request) (w : World) (rq : Request) :
  app w = a -> provenance a F w -> provenance a (F ++ [rq]) (fst (handle rq w)).
Proof.
  intros Ha [Hp Hc]. destruct rq as [|env f|env q]; simpl.
  - split.
    + intros tok inv H. apply verified_submission_mono. exact (Hp tok inv H).
    + intros r u H. destruct (Hc r u H) as (inv & Hv & Hr & Hu).
      exists inv. split; [apply verified_submission_mono; exact Hv|auto].
  - destruct (invite_effect env f w) as (Hcalls & Happ & Hcs).
    destruct (invite env f w) as [w' r'] eqn:Hi. simpl in *. split.
    + intros tok inv H. destruct Hcs as [[Hcs _]|(Hcs & Ht & Hr & _)]; rewrite Hcs in H.
      * apply verified_submission_mono. exact (Hp tok inv H).
      * destruct (decide (iv_new_random env = tok)) as [<-|Hne].
        -- rewrite lookup_insert_eq in H. injection H as <-.
           exists env. rewrite in_app_iff. simpl. subst a. auto.
        -- rewrite lookup_insert_ne in H by exact Hne.
           apply verified_submission_mono. exact (Hp tok inv H).
    + intros r u H. rewrite Hcalls, in_app_iff in H. destruct H as [H|[H|[]]];
        [|discriminate].
      destruct (Hc r u H) as (inv & Hv & Hr & Hu).
      exists inv. split; [apply verified_submission_mono; exact Hv|auto].
  - destruct (callback_effect env q w) as (new & Hcalls & _ & Hnew).
    pose proof (callback_csrf env q w) as Hcs.
    destruct (callback env q w) as [w' r'] eqn:Hcb. simpl in *. split.
    + intros tok inv H. rewrite Hcs in H.
      apply lookup_delete_Some in H as [_ H].
      apply verified_submission_mono. exact (Hp tok inv H).
    + intros r u H. rewrite Hcalls, in_app_iff in H. destruct H as [H|H].
      * destruct (Hc r u H) as (inv & Hv & Hr & Hu).
        exists inv. split; [apply verified_submission_mono; exact Hv|auto].
      * destruct (Hnew r u H) as (inv & gh & Hq & Hr & Hu & _).
        exists inv. split; [apply verified_submission_mono; exact (Hp _ _ Hq)|auto].
Qed.

Lemma provenance_run (a : AppState) (F rqs : list Request) (w : World) :
  app w = a -> provenance a F w -> provenance a (F ++ rqs) (fst (run w rqs)).
Proof.
  revert F w. induction rqs as [|rq rest IH]; intros F w Ha Hp; simpl.
  - rewrite app_nil_r. exact Hp.
  - pose proof (provenance_handle a F w rq Ha Hp) as H1.
    pose proof (handle_app rq w) as Ha1.
    destruct (handle rq w) as [w1 r] eqn:Hh. simpl in *.
    specialize (IH (F ++ [rq]) w1). rewrite <- app_assoc in IH.
    destruct (run w1 rest) as [w2 rs]. simpl in *.
    apply IH; [congruence|exact H1].
Qed.

(** X10: after any sequence of requests served from the startup world,
    every invite call in the log is for the room and user of a form that
    was submitted in the sequence with a passing Turnstile answer, and
    its room is in the snapshot. *)
Theorem invite_calls_provenance (client_id redirect_url site_key secret_key : string)
    (summary : string -> option RoomSummary) (joined_rooms : list string)
    (w0 : World) (rqs : list Request) (r u : string) :
  startup client_id redirect_url site_key secret_key summary joined_rooms = Some w0 ->
  In (InviteUser r u) (calls (fst (run w0 rqs))) ->
  exists env f, In (ReqInvite env f) rqs /\ iv_turnstile env = Decoded true /\
    is_Some (rooms (app w0) !! r) /\ room_id f = r /\ user_id f = u.
Proof.
  intros Hs Hin. destruct (startup_rooms _ _ _ _ _ _ _ Hs) as (_ & Hcs & Hcl).
  assert (H0 : provenance (app w0) [] w0).
  { split.
    - intros tok inv H. rewrite Hcs, lookup_empty in H. discriminate.
    - intros r' u' H. rewrite Hcl in H. destruct H. }
  destruct (provenance_run (app w0) [] rqs w0 eq_refl H0) as [_ Hc].
  destruct (Hc r u Hin) as (f & (env & Hf & Ht & Hr) & Hr' & Hu').
  subst r u. exists env, f. auto.
Qed.

Lemma invite_calls_provenance_witness :
  exists env f,
    In (ReqInvite env f)
       [ReqInvite Sample.iv_pass Sample.form;
        ReqCallback (Sample.cb_env (2 * one_day) (MatrixOk None) (MatrixOk tt)) Sample.query] /\
    iv_turnstile env = Decoded true.
Proof.
  destruct (invite_calls_provenance "cid" "https://bouncer.example.org/callback" "site" "secret"
           (fun r => Some {| sm_room_id := r; sm_canonical_alias := Some "#r:example.org";
                             sm_name := Some "R"; sm_join_rule := JRPublic |})
           ["!r:example.org"] Sample.world0
           [ReqInvite Sample.iv_pass Sample.form;
            ReqCallback (Sample.cb_env (2 * one_day) (MatrixOk None) (MatrixOk tt)) Sample.query]
           "!r:example.org" "@bot:matrix.org")
    as (env & f & Hin & Ht & _).
  - reflexivity.
  - vm_compute. repeat (first [left; reflexivity | right]).
  - exists env, f. auto.
Defined.

Lemma invite_calls_app (l1 l2 : list Call) :
  invite_calls (l1 ++ l2) = (invite_calls l1 + invite_calls l2)%nat.
Proof. induction l1 as [|[] l1 IH]; simpl; lia. Qed.

Lemma redirects_cons (r : Response) (rs : list Response) :
  redirects (r :: rs) = (redirects [r] + redirects rs)%nat.
Proof. destruct r as [|[]|]; reflexivity. Qed.

Lemma budget_handle (rq : Request) (w : World) :
  (invite_calls (calls (fst (handle rq w))) + size (csrf (fst (handle rq w)))
   <= invite_calls (calls w) + size (csrf w) + redirects [snd (handle rq w)])%nat.
Proof.
  destruct rq as [|env f|env q]; simpl.
  - destruct w. simpl. lia.
  - destruct (invite_effect env f w) as (Hcalls & _ & Hcs).
    destruct (invite env f w) as [w' r'] eqn:Hi. simpl in *.
    rewrite Hcalls, invite_calls_app. simpl.
    destruct Hcs as [(Hcs & s & m & ->)|(Hcs & _ & _ & ->)]; rewrite Hcs; simpl.
    + lia.
    + rewrite map_size_insert. destruct (csrf w !! iv_new_random env); simpl; lia.
  - destruct (callback_effect env q w) as (new & Hcalls & Hle & _).
    pose proof (callback_csrf env q w) as Hcs.
    destruct (callback env q w) as [w' r'] eqn:Hcb. simpl in *.
    rewrite Hcalls, invite_calls_app, Hcs, map_size_delete.
    destruct (csrf w !! state q) eqn:Hq; simpl in *.
    + assert (size (csrf w) <> 0%nat).
      { intros H0. apply map_size_empty_inv in H0. rewrite H0, lookup_empty in Hq.
        discriminate. }
      lia.
    + lia.
Qed.

Lemma budget_run (rqs : list Request) (w : World) :
  (invite_calls (calls (fst (run w rqs))) + size (csrf (fst (run w rqs)))
   <= invite_calls (calls w) + size (csrf w) + redirects (snd (run w rqs)))%nat.
Proof.
  revert w. induction rqs as [|rq rest IH]; intros w.
  - simpl. lia.
  - cbn [run]. pose proof (budget_handle rq w) as H1.
    destruct (handle rq w) as [w1 r] eqn:Hh. specialize (IH w1).
    destruct (run w1 rest) as [w2 rs]. cbn [fst snd] in *.
    rewrite redirects_cons. lia.
Qed.

(** X11: after any sequence of requests served from the startup world,
    the homeserver received at most as many invite calls as there were
    [POST /invite] requests answered with a redirect. *)
Theorem invites_bounded_by_redirects (client_id redirect_url site_key secret_key : string)
    (summary : string -> option RoomSummary) (joined_rooms : list string)
    (w0 : World) (rqs : list Request) :
  startup client_id redirect_url site_key secret_key summary joined_rooms = Some w0 ->
  (invite_calls (calls (fst (run w0 rqs))) <= redirects (snd (run w0 rqs)))%nat.
Proof.
  intros Hs. destruct (startup_rooms _ _ _ _ _ _ _ Hs) as (_ & Hcs & Hcl).
  pose proof (budget_run rqs w0) as H. rewrite Hcs, Hcl, map_size_empty in H.
  simpl in H. lia.
Qed.

Lemma invites_bounded_by_redirects_witness :
  (invite_calls (calls (fst (run Sample.world0
     [ReqInvite Sample.iv_pass Sample.form;
      ReqCallback (Sample.cb_env (2 * one_day) (MatrixOk None) (MatrixOk tt)) Sample.query;
      ReqCallback (Sample.cb_env (2 * one_day) (MatrixOk None) (MatrixOk tt)) Sample.query])))
   <= redirects (snd (run Sample.world0
     [ReqInvite Sample.iv_pass Sample.form;
      ReqCallback (Sample.cb_env (2 * one_day) (MatrixOk None) (MatrixOk tt)) Sample.query;
      ReqCallback (Sample.cb_env (2 * one_day) (MatrixOk None) (MatrixOk tt)) Sample.query])))%nat.
Proof.
  apply (invites_bounded_by_redirects "cid" "https://bouncer.example.org/callback" "site" "secret"
           (fun r => Some {| sm_room_id := r; sm_canonical_alias := Some "#r:example.org";
                             sm_name := Some "R"; sm_join_rule := JRPublic |})
           ["!r:example.org"]).
  reflexivity.
Defined.
